(** * trendspy: adaptive admission control

    A shallow embedding of the admission-control core of trendspy
    (rate_limiter.py, degradation_manager.py, quota_analyzer.py, metrics.py,
    config_tuner.py) together with the properties its specification states.

    Conventions of the embedding.
    - Python [int] is [Z] (unbounded).
    - Python [float] is [Q]: the constants the code writes (1.0, 1.5, 2.0,
      3.0, 0.8, 3600, ...) are exact rationals, and the properties below use
      only order and exact field arithmetic on them.
    - Wall-clock time ([time.time()], [datetime.now()]) is one clock in
      seconds; [time.sleep d] advances it by [d] and is logged.
    - [random.uniform] is an input of the call that draws it.
    - Logging calls are dropped: they touch no state. *)

From Stdlib Require Import ZArith QArith Qround Qabs Qminmax List Bool Lia Lqa.
From Stdlib Require Import Sorting.Sorted Sorting.Permutation.
Import ListNotations.

Open Scope Q_scope.

(** ** Python built-ins used by several modules *)

(** [max(a, b)] keeps its first argument unless the second is strictly
    larger. *)
Definition py_max (a b : Q) : Q :=
  if Qlt_le_dec a b then b else a.

Definition Qltb (a b : Q) : bool :=
  if Qlt_le_dec a b then true else false.

Definition len {A : Type} (l : list A) : Z := Z.of_nat (length l).

(** [collections.deque(maxlen=n).append(x)]: once the deque holds [n]
    items the oldest one is dropped from the left; a deque of maximal
    length 0 stays empty. *)
Definition deque_append {A : Type} (maxlen : Z) (d : list A) (x : A) : list A :=
  if (maxlen =? 0)%Z then d
  else if (len d <? maxlen)%Z then d ++ [x]
  else tl d ++ [x].

(** Exceptions the modelled code can raise. *)
Inductive exn : Type :=
| IndexError
| ZeroDivisionError.

Inductive result (A : Type) : Type :=
| Ok (a : A)
| Raise (e : exn).
Arguments Ok {A} a.
Arguments Raise {A} e.

(** The part of the outside world the limiter talks to: a clock, and the
    log of every [time.sleep] performed. *)
Record World : Type := mkWorld {
  clock : Q;
  sleeps : list Q
}.

(** ** rate_limiter.py *)
Module RateLimiter.

Record AdaptiveRateLimiter : Type := mkLimiter {
  requests_per_hour : Z;
  base_delay : Q;
  emergency_threshold : Z;
  emergency_multiplier : Z;
  request_times : list Q;
  consecutive_failures : Z;
  emergency_mode : bool;
  last_request_time : Q;
  delay_multiplier : Q
}.

Definition set_request_times (v : list Q) (s : AdaptiveRateLimiter) :=
  mkLimiter (requests_per_hour s) (base_delay s) (emergency_threshold s)
    (emergency_multiplier s) v (consecutive_failures s) (emergency_mode s)
    (last_request_time s) (delay_multiplier s).

Definition set_consecutive_failures (v : Z) (s : AdaptiveRateLimiter) :=
  mkLimiter (requests_per_hour s) (base_delay s) (emergency_threshold s)
    (emergency_multiplier s) (request_times s) v (emergency_mode s)
    (last_request_time s) (delay_multiplier s).

Definition set_emergency_mode (v : bool) (s : AdaptiveRateLimiter) :=
  mkLimiter (requests_per_hour s) (base_delay s) (emergency_threshold s)
    (emergency_multiplier s) (request_times s) (consecutive_failures s) v
    (last_request_time s) (delay_multiplier s).

Definition set_last_request_time (v : Q) (s : AdaptiveRateLimiter) :=
  mkLimiter (requests_per_hour s) (base_delay s) (emergency_threshold s)
    (emergency_multiplier s) (request_times s) (consecutive_failures s)
    (emergency_mode s) v (delay_multiplier s).

Definition set_delay_multiplier (v : Q) (s : AdaptiveRateLimiter) :=
  mkLimiter (requests_per_hour s) (base_delay s) (emergency_threshold s)
    (emergency_multiplier s) (request_times s) (consecutive_failures s)
    (emergency_mode s) (last_request_time s) v.

(** [__init__].  ([deque(maxlen=n)] itself refuses a negative [n], so no
    limiter exists with [requests_per_hour < 0].) *)
Definition init (rph : Z) (bd : Q) (et em : Z) : AdaptiveRateLimiter :=
  {| requests_per_hour := rph;
     base_delay := bd;
     emergency_threshold := et;
     emergency_multiplier := em;
     request_times := [];
     consecutive_failures := 0;
     emergency_mode := false;
     last_request_time := 0;
     delay_multiplier := 1.0 |}.

(** The constructor's default arguments. *)
Definition init_default : AdaptiveRateLimiter := init 200 15.0 5 3.

(** *** The methods that only touch the object *)

Definition record_success (s : AdaptiveRateLimiter) : AdaptiveRateLimiter :=
  let s := set_consecutive_failures 0 s in
  let s := if emergency_mode s then set_emergency_mode false s else s in
  if Qltb 1.0 (delay_multiplier s)
  then set_delay_multiplier (py_max 1.0 (delay_multiplier s * 0.8)) s
  else s.

Definition record_failure (s : AdaptiveRateLimiter) : AdaptiveRateLimiter :=
  let s := set_consecutive_failures (consecutive_failures s + 1) s in
  if (consecutive_failures s =? 1)%Z then set_delay_multiplier 1.5 s
  else if (consecutive_failures s =? 2)%Z then set_delay_multiplier 2.0 s
  else if (3 <=? consecutive_failures s)%Z && negb (emergency_mode s)
  then set_delay_multiplier 3.0 (set_emergency_mode true s)
  else s.

(** [should_circuit_break] returns its verdict; the object it leaves
    behind is returned next to it. *)
Definition should_circuit_break (s : AdaptiveRateLimiter)
  : bool * AdaptiveRateLimiter :=
  let threshold := (emergency_threshold s * 2)%Z in
  let should_break := (threshold <=? consecutive_failures s)%Z in
  (should_break, s).

(** The dictionary [get_stats] builds has a fixed key set. *)
Record Stats : Type := mkStats {
  requests_last_hour : Z;
  requests_per_hour_limit : Z;
  utilization_pct : Q;
  st_consecutive_failures : Z;
  st_emergency_mode : bool;
  st_base_delay : Q;
  st_delay_multiplier : Q;
  effective_delay : Q;
  circuit_breaker_threshold : Z
}.

Definition get_stats (s : AdaptiveRateLimiter)
  : result Stats * AdaptiveRateLimiter :=
  let eff := base_delay s * delay_multiplier s in
  let eff := if emergency_mode s
             then eff * inject_Z (emergency_multiplier s) else eff in
  if (requests_per_hour s =? 0)%Z then (Raise ZeroDivisionError, s)
  else
    (Ok {| requests_last_hour := len (request_times s);
           requests_per_hour_limit := requests_per_hour s;
           utilization_pct :=
             (inject_Z (len (request_times s))
                / inject_Z (requests_per_hour s)) * 100;
           st_consecutive_failures := consecutive_failures s;
           st_emergency_mode := emergency_mode s;
           st_base_delay := base_delay s;
           st_delay_multiplier := delay_multiplier s;
           effective_delay := eff;
           circuit_breaker_threshold := (emergency_threshold s * 2)%Z |}, s).

Definition reset (s : AdaptiveRateLimiter) : AdaptiveRateLimiter :=
  let s := set_consecutive_failures 0 s in
  let s := set_emergency_mode false s in
  let s := set_delay_multiplier 1.0 s in
  set_request_times [] s.

(** *** The methods that read the clock and sleep

    A computation runs on the limiter and the world, and hands both back
    whether it returns or raises: what a method wrote before an exception
    stays written. *)

Definition St : Type := (AdaptiveRateLimiter * World)%type.
Definition M (A : Type) : Type := St -> result A * St.

Definition ret {A : Type} (a : A) : M A := fun st => (Ok a, st).

Definition bind {A B : Type} (m : M A) (k : A -> M B) : M B :=
  fun st =>
    match m st with
    | (Ok a, st') => k a st'
    | (Raise e, st') => (Raise e, st')
    end.

Definition raise {A : Type} (e : exn) : M A := fun st => (Raise e, st).

Definition self : M AdaptiveRateLimiter := fun st => (Ok (fst st), st).

Definition update (f : AdaptiveRateLimiter -> AdaptiveRateLimiter) : M unit :=
  fun st => (Ok tt, (f (fst st), snd st)).

Definition time_time : M Q := fun st => (Ok (clock (snd st)), st).

Definition datetime_now : M Q := time_time.

Definition time_sleep (d : Q) : M unit :=
  fun st =>
    (Ok tt, (fst st, {| clock := clock (snd st) + d;
                        sleeps := sleeps (snd st) ++ [d] |})).

Declare Scope limiter_scope.
Delimit Scope limiter_scope with lim.
Notation "x <- m ;; k" := (bind m (fun x => k))
  (at level 61, m at next level, right associativity) : limiter_scope.
Notation "m ;; k" := (bind m (fun _ => k))
  (at level 61, right associativity) : limiter_scope.
Open Scope limiter_scope.

(** The [while] loop of [_enforce_hourly_limit]: pop from the left while
    the oldest entry is older than the horizon. *)
Fixpoint drop_expired (horizon : Q) (times : list Q) : list Q :=
  match times with
  | [] => []
  | t :: rest => if Qltb t horizon then drop_expired horizon rest else times
  end.

Definition _enforce_hourly_limit : M unit :=
  now <- datetime_now ;;
  let one_hour_ago := now - 3600 in
  update (fun s => set_request_times
                     (drop_expired one_hour_ago (request_times s)) s) ;;
  s <- self ;;
  if (requests_per_hour s <=? len (request_times s))%Z then
    match request_times s with
    | [] => raise IndexError
    | oldest :: _ =>
        let wait_until := oldest + 3600 in
        let wait_seconds := wait_until - now in
        if Qltb 0 wait_seconds then time_sleep (wait_seconds + 1) else ret tt
    end
  else ret tt.

(** [wait_if_needed]; [jitter] is the value [random.uniform] returns when
    the call draws one (from [0.75, 1.25] in emergency mode, from
    [0.85, 1.15] otherwise). *)
Definition wait_if_needed (jitter : Q) : M unit :=
  current_time <- time_time ;;
  s <- self ;;
  (if Qltb 0 (last_request_time s) then
     let time_since_last := current_time - last_request_time s in
     let effective_delay := base_delay s * delay_multiplier s in
     let effective_delay :=
       if emergency_mode s
       then effective_delay * inject_Z (emergency_multiplier s)
       else effective_delay in
     let effective_delay := effective_delay * jitter in
     if Qltb time_since_last effective_delay
     then time_sleep (effective_delay - time_since_last)
     else ret tt
   else ret tt) ;;
  _enforce_hourly_limit ;;
  t <- time_time ;;
  update (set_last_request_time t) ;;
  now <- datetime_now ;;
  update (fun s => set_request_times
                     (deque_append (requests_per_hour s) (request_times s) now) s).

Close Scope limiter_scope.

(** *** Runs of operations

    What a client can do with a limiter between two observations: let time
    pass, or call a public method. *)
Inductive op : Type :=
| OpElapse (d : Q)
| OpWaitIfNeeded (jitter : Q)
| OpRecordSuccess
| OpRecordFailure
| OpShouldCircuitBreak
| OpGetStats
| OpReset.

Definition step (o : op) (st : St) : St :=
  match o with
  | OpElapse d =>
      (fst st, {| clock := clock (snd st) + d; sleeps := sleeps (snd st) |})
  | OpWaitIfNeeded j => snd (wait_if_needed j st)
  | OpRecordSuccess => (record_success (fst st), snd st)
  | OpRecordFailure => (record_failure (fst st), snd st)
  | OpShouldCircuitBreak => (snd (should_circuit_break (fst st)), snd st)
  | OpGetStats => (snd (get_stats (fst st)), snd st)
  | OpReset => (reset (fst st), snd st)
  end.

Definition run (ops : list op) (st : St) : St :=
  fold_left (fun st o => step o st) ops st.

(** [n] calls of [record_failure] in a row. *)
Definition failures (n : nat) (s : AdaptiveRateLimiter) : AdaptiveRateLimiter :=
  Nat.iter n record_failure s.

(** Operations other than the two that leave emergency mode. *)
Definition keeps_emergency (o : op) : bool :=
  match o with
  | OpRecordSuccess | OpReset => false
  | _ => true
  end.

(** Two limiters that agree on everything but the sliding window and the
    time of the last request. *)
Definition same_core (a b : AdaptiveRateLimiter) : Prop :=
  requests_per_hour a = requests_per_hour b /\
  base_delay a = base_delay b /\
  emergency_threshold a = emergency_threshold b /\
  emergency_multiplier a = emergency_multiplier b /\
  consecutive_failures a = consecutive_failures b /\
  emergency_mode a = emergency_mode b /\
  delay_multiplier a = delay_multiplier b.

(** The baseline state of the specification. *)
Definition baseline (s : AdaptiveRateLimiter) : Prop :=
  delay_multiplier s = 1.0 /\
  consecutive_failures s = 0%Z /\
  emergency_mode s = false.

(** The state invariant of the specification. *)
Definition invariant (s : AdaptiveRateLimiter) : Prop :=
  1.0 <= delay_multiplier s /\
  (emergency_mode s = true -> 3.0 <= delay_multiplier s).

(** What the methods maintain on top of it: failures are counted from 0,
    and emergency mode is only ever on from the third failure of a run. *)
Definition strong_invariant (s : AdaptiveRateLimiter) : Prop :=
  1.0 <= delay_multiplier s /\
  (0 <= consecutive_failures s)%Z /\
  (emergency_mode s = true ->
   3.0 <= delay_multiplier s /\ (3 <= consecutive_failures s)%Z).

(** The first request at time 1000 on a default limiter, then a reset,
    then one second passes. *)
Definition after_request_and_reset : St :=
  run [OpWaitIfNeeded 1; OpReset; OpElapse 1]
      (init_default, {| clock := 1000; sleeps := [] |}).

(** A freshly constructed default limiter at the same instant. *)
Definition fresh_at_same_time : St :=
  (init_default, snd after_request_and_reset).

End RateLimiter.

(** ** degradation_manager.py *)
Module DegradationManager.

Inductive HealthState : Type :=
| HEALTHY
| DEGRADED_MINOR
| DEGRADED_MAJOR
| RECOVERY.

Inductive Priority : Type :=
| LOW
| MEDIUM
| HIGH.

Definition HealthState_eqb (a b : HealthState) : bool :=
  match a, b with
  | HEALTHY, HEALTHY
  | DEGRADED_MINOR, DEGRADED_MINOR
  | DEGRADED_MAJOR, DEGRADED_MAJOR
  | RECOVERY, RECOVERY => true
  | _, _ => false
  end.

Definition Priority_eqb (a b : Priority) : bool :=
  match a, b with
  | LOW, LOW | MEDIUM, MEDIUM | HIGH, HIGH => true
  | _, _ => false
  end.

Record Manager : Type := mkManager {
  minor_threshold : Z;
  major_threshold : Z;
  recovery_successes : Z;
  health_state : HealthState;
  consecutive_429s : Z;
  consecutive_successes : Z
}.

Definition init (minor major recovery : Z) : Manager :=
  {| minor_threshold := minor;
     major_threshold := major;
     recovery_successes := recovery;
     health_state := HEALTHY;
     consecutive_429s := 0;
     consecutive_successes := 0 |}.

Definition init_default : Manager := init 5 10 3.

Definition set_health_state (v : HealthState) (s : Manager) :=
  mkManager (minor_threshold s) (major_threshold s) (recovery_successes s)
    v (consecutive_429s s) (consecutive_successes s).

Definition set_consecutive_429s (v : Z) (s : Manager) :=
  mkManager (minor_threshold s) (major_threshold s) (recovery_successes s)
    (health_state s) v (consecutive_successes s).

Definition set_consecutive_successes (v : Z) (s : Manager) :=
  mkManager (minor_threshold s) (major_threshold s) (recovery_successes s)
    (health_state s) (consecutive_429s s) v.

Definition update_health (got_429 : bool) (s : Manager) : Manager :=
  if got_429 then
    let s := set_consecutive_429s (consecutive_429s s + 1) s in
    let s := set_consecutive_successes 0 s in
    if (major_threshold s <=? consecutive_429s s)%Z
    then set_health_state DEGRADED_MAJOR s
    else if (minor_threshold s <=? consecutive_429s s)%Z
    then set_health_state DEGRADED_MINOR s
    else s
  else
    let s := set_consecutive_successes (consecutive_successes s + 1) s in
    let s := if (0 <? consecutive_429s s)%Z
             then set_consecutive_429s (Z.max 0 (consecutive_429s s - 1)) s
             else s in
    if (recovery_successes s <=? consecutive_successes s)%Z then
      let s := if negb (HealthState_eqb (health_state s) HEALTHY)
               then set_health_state RECOVERY s else s in
      if (recovery_successes s * 2 <=? consecutive_successes s)%Z
      then set_consecutive_429s 0 (set_health_state HEALTHY s)
      else s
    else s.

Definition should_process_keyword (keyword_priority : Priority) (s : Manager)
  : bool :=
  match health_state s with
  | HEALTHY => true
  | RECOVERY => true
  | DEGRADED_MINOR =>
      existsb (Priority_eqb keyword_priority) [HIGH; MEDIUM]
  | DEGRADED_MAJOR => Priority_eqb keyword_priority HIGH
  end.

Definition reset (s : Manager) : Manager :=
  let s := set_health_state HEALTHY s in
  let s := set_consecutive_429s 0 s in
  set_consecutive_successes 0 s.

(** [k] updates in a row, all with the same outcome. *)
Definition updates (got_429 : bool) (k : nat) (s : Manager) : Manager :=
  Nat.iter k (update_health got_429) s.

(** Any history of updates. *)
Definition run (events : list bool) (s : Manager) : Manager :=
  fold_left (fun s e => update_health e s) events s.

(** The health state the specification predicts after [k] rejections in
    a row on a fresh manager. *)
Definition state_after_rejections (m M k : Z) : HealthState :=
  if (M <=? k)%Z then DEGRADED_MAJOR
  else if (m <=? k)%Z then DEGRADED_MINOR
  else HEALTHY.

Definition degraded (s : Manager) : Prop :=
  health_state s = DEGRADED_MINOR \/ health_state s = DEGRADED_MAJOR.

(** The success that completes a sustained run: the one on which the
    code promotes to HEALTHY and clears the rejection counter. *)
Definition completes_recovery (s : Manager) : bool :=
  (recovery_successes s <=? consecutive_successes s + 1)%Z &&
  (recovery_successes s * 2 <=? consecutive_successes s + 1)%Z.

(** Fifteen rejections, then five successes, on a default manager. *)
Definition before_sixth_success : Manager :=
  updates false 5 (updates true 15 init_default).

End DegradationManager.

(** ** Built-ins and numpy functions used by the analyzer and the metrics

    [sorted] is a stable sort; numpy's [diff], [histogram] (uniform bins)
    and [argmax] follow numpy's documented results, in exact arithmetic. *)

Fixpoint insert_sorted (x : Q) (l : list Q) : list Q :=
  match l with
  | [] => [x]
  | y :: r => if Qltb y x then y :: insert_sorted x r else x :: l
  end.

Fixpoint sorted (l : list Q) : list Q :=
  match l with
  | [] => []
  | x :: r => insert_sorted x (sorted r)
  end.

Fixpoint np_diff (l : list Q) : list Q :=
  match l with
  | a :: (b :: _) as r => (b - a) :: np_diff r
  | _ => []
  end.

Definition np_min (x : Q) (l : list Q) : Q := fold_left Qmin l x.
Definition np_max (x : Q) (l : list Q) : Q := fold_left Qmax l x.

(** [numpy.linspace(lo, hi, bins + 1)[j]]. *)
Definition bin_edge (bins : nat) (lo hi : Q) (j : nat) : Q :=
  lo + (hi - lo) * (inject_Z (Z.of_nat j) / inject_Z (Z.of_nat bins)).

(** Bin [j] of [bins] is half-open, [edge j <= x < edge (j+1)], except the
    last one, which also takes its right edge. *)
Definition in_bin (bins : nat) (lo hi : Q) (j : nat) (x : Q) : bool :=
  Qle_bool (bin_edge bins lo hi j) x &&
  (if Nat.eqb (S j) bins
   then Qle_bool x (bin_edge bins lo hi (S j))
   else Qltb x (bin_edge bins lo hi (S j))).

(** The range numpy gives the histogram of a non-empty array: from its
    minimum to its maximum, widened by one half on each side when the two
    are equal. *)
Definition hist_range (a : list Q) : Q * Q :=
  match a with
  | [] => (0, 1)
  | x :: r =>
      let lo := np_min x r in
      let hi := np_max x r in
      if Qeq_bool lo hi then (lo - 0.5, hi + 0.5) else (lo, hi)
  end.

Definition count_in_bin (bins : nat) (lo hi : Q) (a : list Q) (j : nat) : Z :=
  len (filter (in_bin bins lo hi j) a).

(** [numpy.histogram(a, bins)]: the counts and the [bins + 1] edges. *)
Definition np_histogram (a : list Q) (bins : nat) : list Z * list Q :=
  let (lo, hi) := hist_range a in
  (map (count_in_bin bins lo hi a) (seq 0 bins),
   map (bin_edge bins lo hi) (seq 0 (S bins))).

(** [numpy.argmax]: the first index that holds the largest value. *)
Fixpoint argmax_from (best_i : nat) (best : Z) (i : nat) (l : list Z) : nat :=
  match l with
  | [] => best_i
  | x :: r =>
      if (best <? x)%Z then argmax_from i x (S i) r
      else argmax_from best_i best (S i) r
  end.

Definition np_argmax (l : list Z) : nat :=
  match l with
  | [] => 0%nat
  | x :: r => argmax_from 0 x 1 r
  end.

(** ** quota_analyzer.py *)
Module QuotaAnalyzer.

Record Analyzer : Type := mkAnalyzer {
  history_size : Z;
  success_timestamps : list Q;
  failure_timestamps : list Q;
  detected_window : option Q
}.

Definition init (history_size : Z) : Analyzer :=
  {| history_size := history_size;
     success_timestamps := [];
     failure_timestamps := [];
     detected_window := None |}.

Definition init_default : Analyzer := init 1000.

(** [record_result]; a caller that passes no timestamp gets the clock's
    reading, so the timestamp is always an argument here. *)
Definition record_result (success : bool) (timestamp : Q) (s : Analyzer)
  : Analyzer :=
  if success
  then mkAnalyzer (history_size s)
         (deque_append (history_size s) (success_timestamps s) timestamp)
         (failure_timestamps s) (detected_window s)
  else mkAnalyzer (history_size s) (success_timestamps s)
         (deque_append (history_size s) (failure_timestamps s) timestamp)
         (detected_window s).

(** The deltas the detector keeps: differences of consecutive sorted
    success times, below one hour. *)
Definition valid_deltas (s : Analyzer) : list Q :=
  filter (fun d => Qltb d 3600) (np_diff (sorted (success_timestamps s))).

(** The histogram step: the centre of the first fullest of 20 bins. *)
Definition modal_window (deltas : list Q) : Q :=
  let (hist, bins) := np_histogram deltas 20 in
  let modal_index := np_argmax hist in
  (nth modal_index bins 0 + nth (modal_index + 1) bins 0) / 2.

(** [detect_quota_window]: the estimate, and the analyzer with the
    estimate cached. *)
Definition detect_quota_window (s : Analyzer) : option Q * Analyzer :=
  if (len (success_timestamps s) <? 10)%Z then (None, s)
  else
    let deltas := valid_deltas s in
    if (len deltas <? 5)%Z then (None, s)
    else
      let w := modal_window deltas in
      (Some w,
       mkAnalyzer (history_size s) (success_timestamps s)
         (failure_timestamps s) (Some w)).

Definition reset (s : Analyzer) : Analyzer :=
  mkAnalyzer (history_size s) [] [] None.

(** Recording a list of success times, oldest first. *)
Definition record_successes (ts : list Q) (s : Analyzer) : Analyzer :=
  fold_left (fun s t => record_result true t s) ts s.

(** [n] timestamps [period] apart, starting at [t0]. *)
Definition periodic (t0 period : Q) (n : nat) : list Q :=
  map (fun i => t0 + period * inject_Z (Z.of_nat i)) (seq 0 n).

End QuotaAnalyzer.

(** ** metrics.py *)
Module MetricsCollector.

Record Collector : Type := mkCollector {
  window_size : Z;
  requests_total : Z;
  requests_success : Z;
  requests_429 : Z;
  requests_failed : Z;
  response_times : list Q;
  status_codes : list Z
}.

Definition init (window_size : Z) : Collector :=
  {| window_size := window_size;
     requests_total := 0;
     requests_success := 0;
     requests_429 := 0;
     requests_failed := 0;
     response_times := [];
     status_codes := [] |}.

(** The counters and rolling windows [record_request] maintains. *)
Definition record_request (success : bool) (response_time : Q)
  (status_code : Z) (s : Collector) : Collector :=
  {| window_size := window_size s;
     requests_total := requests_total s + 1;
     requests_success :=
       if success then requests_success s + 1 else requests_success s;
     requests_429 :=
       if (status_code =? 429)%Z then requests_429 s + 1 else requests_429 s;
     requests_failed :=
       if success then requests_failed s else requests_failed s + 1;
     response_times :=
       deque_append (window_size s) (response_times s) response_time;
     status_codes :=
       deque_append (window_size s) (status_codes s) status_code |}.

(** [int(x)] truncates toward zero. *)
Definition py_int (x : Q) : Z :=
  if Qltb x 0 then Qceiling x else Qfloor x.

Definition get_p95_response_time (s : Collector) : Q :=
  match response_times s with
  | [] => 0.0
  | _ =>
      let sorted_times := sorted (response_times s) in
      let index := py_int (inject_Z (len sorted_times) * 0.95) in
      if (index <? len sorted_times)%Z
      then nth (Z.to_nat index) sorted_times 0
      else last sorted_times 0
  end.

(** The k-th smallest (k counted from 1) of a window. *)
Definition kth_smallest (k : Z) (l : list Q) : Q :=
  nth (Z.to_nat (k - 1)) (sorted l) 0.

(** The rank the nearest-rank method picks for the 95th percentile of
    [n] values: the ceiling of [0.95 * n]. *)
Definition nearest_rank_95 (n : Z) : Z := Qceiling (0.95 * inject_Z n).

(** The rank the code picks: one past the floor of [0.95 * n]. *)
Definition floor_rank_95 (n : Z) : Z := (19 * n / 20 + 1)%Z.

(** Recording successful requests with the given response times. *)
Definition record_times (times : list Q) (s : Collector) : Collector :=
  fold_left (fun s t => record_request true t 200 s) times s.

(** Twenty requests that took 1, 2, ..., 20 seconds, on a collector with
    the default window of 100. *)
Definition twenty_requests : Collector :=
  record_times (map (fun k => inject_Z (Z.of_nat k)) (seq 1 20)) (init 100).

End MetricsCollector.

(** ** config_tuner.py *)
Module ConfigTuner.

Record TuningRecord : Type := mkRecord {
  base_delay : Q;
  requests_per_hour : Q;
  success_rate : Q;
  response_time : Q;
  requests_total : Z
}.

Definition Tuner : Type := list TuningRecord.

(** [record_session] appends one record (and persists the log). *)
Definition record_session (r : TuningRecord) (performance_history : Tuner)
  : Tuner :=
  performance_history ++ [r].

(** Why an adjustment was made: the text of the ["reason"] entry differs
    only by the branch and the mean it prints. *)
Inductive Reason : Type :=
| LowSuccessRate (avg : Q)
| HighSuccessRate (avg : Q).

Record Adjustment : Type := mkAdjustment {
  adj_base_delay : Q;
  reason : Reason
}.

(** [l[-n:]]. *)
Definition last_n {A : Type} (n : nat) (l : list A) : list A :=
  skipn (length l - n) l.

Definition Qsum (l : list Q) : Q := fold_right Qplus 0 l.

(** [statistics.mean] of a non-empty list. *)
Definition mean (l : list Q) : Q := Qsum l / inject_Z (len l).

Definition default_record : TuningRecord := mkRecord 0 0 0 0 0.

Definition auto_tune (performance_history : Tuner) : option Adjustment :=
  if (len performance_history <? 5)%Z then None
  else
    let recent := last_n 10 performance_history in
    let avg_success := mean (map success_rate recent) in
    let current_delay := base_delay (last recent default_record) in
    if Qltb avg_success 80 then
      let new_delay := current_delay + 2 in
      Some {| adj_base_delay := new_delay;
              reason := LowSuccessRate avg_success |}
    else if Qltb 95 avg_success && Qltb 5 current_delay then
      let new_delay := py_max 5 (current_delay - 1) in
      Some {| adj_base_delay := new_delay;
              reason := HighSuccessRate avg_success |}
    else None.

Definition reset (performance_history : Tuner) : Tuner := [].

End ConfigTuner.

(** * Properties *)

(** ** Rate limiter *)
Section RateLimiterFacts.
Import RateLimiter.

Lemma Qltb_true (a b : Q) : Qltb a b = true <-> a < b.
Proof.
  unfold Qltb. destruct (Qlt_le_dec a b) as [H | H]; split; intro K;
    try reflexivity; try assumption; try discriminate.
  exfalso. apply (Qlt_irrefl a). apply Qlt_le_trans with b; assumption.
Qed.

Lemma Qltb_false (a b : Q) : Qltb a b = false <-> b <= a.
Proof.
  unfold Qltb. destruct (Qlt_le_dec a b) as [H | H]; split; intro K;
    try reflexivity; try assumption; try discriminate.
  exfalso. apply (Qlt_irrefl a). apply Qlt_le_trans with b; assumption.
Qed.

Lemma py_max_lower (a b : Q) : a <= py_max a b.
Proof.
  unfold py_max. destruct (Qlt_le_dec a b) as [H | H].
  - apply Qlt_le_weak; exact H.
  - apply Qle_refl.
Qed.

Lemma failures_S (n : nat) (s : AdaptiveRateLimiter) :
  failures (S n) s = record_failure (failures n s).
Proof. reflexivity. Qed.

(** On the plateau a failure only counts. *)
Lemma record_failure_plateau (s : AdaptiveRateLimiter) :
  (3 <= consecutive_failures s)%Z ->
  emergency_mode s = true ->
  record_failure s
  = set_consecutive_failures (consecutive_failures s + 1) s.
Proof.
  intros Hcf Hem. unfold record_failure. cbn.
  destruct (Z.eqb_spec (consecutive_failures s + 1) 1); [lia |].
  destruct (Z.eqb_spec (consecutive_failures s + 1) 2); [lia |].
  rewrite Hem. rewrite andb_false_r. reflexivity.
Qed.

Lemma failures_count (n : nat) (s : AdaptiveRateLimiter) :
  consecutive_failures (failures n s)
  = (consecutive_failures s + Z.of_nat n)%Z.
Proof.
  induction n as [| n IH].
  - cbn. lia.
  - rewrite failures_S. unfold record_failure. cbn beta zeta.
    repeat match goal with
           | |- context [if ?c then _ else _] => destruct c
           end; cbn; rewrite IH; lia.
Qed.

(** From the third failure of a run on, the limiter sits on the
    emergency plateau. *)
Lemma failures_plateau (n : nat) (s : AdaptiveRateLimiter) :
  consecutive_failures s = 0%Z ->
  emergency_mode s = false ->
  (3 <= n)%nat ->
  emergency_mode (failures n s) = true /\
  delay_multiplier (failures n s) = 3.0.
Proof.
  intros Hcf Hem Hn.
  induction n as [| n IH]; [lia |].
  destruct (Nat.eq_dec n 2) as [-> | Hne].
  - destruct s; cbn in Hcf, Hem; subst. split; reflexivity.
  - assert (Hn' : (3 <= n)%nat) by lia.
    destruct (IH Hn') as [IHe IHd].
    rewrite failures_S, record_failure_plateau.
    + cbn. split; assumption.
    + rewrite failures_count. lia.
    + exact IHe.
Qed.

(** [wait_if_needed] writes the sliding window and the time of the last
    request, nothing else, whether it returns or raises. *)
Lemma wait_if_needed_frame (j : Q) (st : St) :
  same_core (fst st) (fst (snd (wait_if_needed j st))).
Proof.
  destruct st as [s w].
  unfold wait_if_needed, _enforce_hourly_limit, bind, ret, raise, self,
    update, time_time, datetime_now, time_sleep.
  cbn.
  repeat match goal with
         | |- context [if ?c then _ else _] => destruct c; cbn
         | |- context [match ?l with [] => _ | _ :: _ => _ end] =>
             destruct l; cbn
         end;
    repeat split.
Qed.

Lemma step_keeps_emergency (o : op) (st : St) :
  keeps_emergency o = true ->
  emergency_mode (fst st) = true ->
  (3 <= consecutive_failures (fst st))%Z ->
  emergency_mode (fst (step o st)) = true /\
  (3 <= consecutive_failures (fst (step o st)))%Z.
Proof.
  intros Hq Hem Hcf. destruct o; cbn in Hq; try discriminate;
    unfold step; cbn [fst snd].
  - split; assumption.
  - destruct (wait_if_needed_frame jitter st)
      as (_ & _ & _ & _ & Ecf & Eem & _).
    rewrite <- Ecf, <- Eem. split; assumption.
  - rewrite record_failure_plateau by assumption. cbn. split; [assumption | lia].
  - split; assumption.
  - unfold get_stats. destruct (requests_per_hour (fst st) =? 0)%Z; cbn;
      split; assumption.
Qed.

(** No operation rewrites the emergency threshold. *)
Lemma record_failure_threshold (s : AdaptiveRateLimiter) :
  emergency_threshold (record_failure s) = emergency_threshold s.
Proof.
  unfold record_failure. cbn beta zeta.
  repeat match goal with
         | |- context [if ?c then _ else _] => destruct c
         end; reflexivity.
Qed.

Lemma record_success_threshold (s : AdaptiveRateLimiter) :
  emergency_threshold (record_success s) = emergency_threshold s.
Proof.
  unfold record_success. cbn beta zeta.
  repeat match goal with
         | |- context [if ?c then _ else _] => destruct c
         end; reflexivity.
Qed.

Lemma record_success_count (s : AdaptiveRateLimiter) :
  consecutive_failures (record_success s) = 0%Z.
Proof.
  unfold record_success. cbn beta zeta.
  repeat match goal with
         | |- context [if ?c then _ else _] => destruct c
         end; reflexivity.
Qed.

Lemma failures_threshold (n : nat) (s : AdaptiveRateLimiter) :
  emergency_threshold (failures n s) = emergency_threshold s.
Proof.
  induction n as [| n IH]; [reflexivity |].
  rewrite failures_S, record_failure_threshold. exact IH.
Qed.

Lemma step_threshold (o : op) (st : St) :
  emergency_threshold (fst (step o st)) = emergency_threshold (fst st).
Proof.
  destruct o; unfold step; cbn [fst snd]; try reflexivity.
  - destruct (wait_if_needed_frame jitter st) as (_ & _ & E & _).
    symmetry; exact E.
  - apply record_success_threshold.
  - apply record_failure_threshold.
  - unfold get_stats. destruct (requests_per_hour (fst st) =? 0)%Z; reflexivity.
Qed.

Lemma run_threshold (ops : list op) (st : St) :
  emergency_threshold (fst (run ops st)) = emergency_threshold (fst st).
Proof.
  revert st. induction ops as [| o ops IH]; intro st; [reflexivity |].
  cbn. fold (run ops (step o st)). rewrite IH. apply step_threshold.
Qed.

Lemma run_keeps_emergency (ops : list op) (st : St) :
  forallb keeps_emergency ops = true ->
  emergency_mode (fst st) = true ->
  (3 <= consecutive_failures (fst st))%Z ->
  emergency_mode (fst (run ops st)) = true.
Proof.
  revert st. induction ops as [| o ops IH]; intros st Hq Hem Hcf.
  - exact Hem.
  - cbn in Hq. apply andb_prop in Hq. destruct Hq as [Ho Hr].
    destruct (step_keeps_emergency o st Ho Hem Hcf) as [He' Hc'].
    cbn. apply IH; assumption.
Qed.

(** C1. From the baseline state, consecutive failures set the delay
    multiplier to 1.5, then 2.0, then 3.0 together with emergency mode
    (which is off before the third failure); every later failure leaves
    multiplier and emergency mode as they are and adds one to the failure
    count; emergency mode then stays on through any operations other than
    a success (or a reset), and a success switches it off. *)
Theorem record_failure_schedule (s : AdaptiveRateLimiter) :
  baseline s ->
  (delay_multiplier (failures 1 s) = 1.5 /\
   emergency_mode (failures 1 s) = false) /\
  (delay_multiplier (failures 2 s) = 2.0 /\
   emergency_mode (failures 2 s) = false) /\
  (delay_multiplier (failures 3 s) = 3.0 /\
   emergency_mode (failures 3 s) = true) /\
  (forall n : nat, (3 <= n)%nat ->
     delay_multiplier (failures (S n) s) = delay_multiplier (failures n s) /\
     emergency_mode (failures (S n) s) = emergency_mode (failures n s) /\
     delay_multiplier (failures n s) = 3.0 /\
     emergency_mode (failures n s) = true) /\
  (forall n : nat,
     consecutive_failures (failures (S n) s)
     = (consecutive_failures (failures n s) + 1)%Z) /\
  (forall (n : nat) (ops : list op) (w : World), (3 <= n)%nat ->
     forallb keeps_emergency ops = true ->
     emergency_mode (fst (run ops (failures n s, w))) = true) /\
  (forall n : nat, emergency_mode (record_success (failures n s)) = false).
Proof.
  intros (Hdm & Hcf & Hem).
  split; [| split; [| split; [| split; [| split; [| split]]]]].
  - destruct s; cbn in Hdm, Hcf, Hem; subst. split; reflexivity.
  - destruct s; cbn in Hdm, Hcf, Hem; subst. split; reflexivity.
  - destruct s; cbn in Hdm, Hcf, Hem; subst. split; reflexivity.
  - intros n Hn.
    destruct (failures_plateau n s Hcf Hem Hn) as [He Hd].
    destruct (failures_plateau (S n) s Hcf Hem) as [He' Hd']; [lia |].
    rewrite He, Hd, He', Hd'. repeat split; reflexivity.
  - intro n. rewrite !failures_count. lia.
  - intros n ops w Hn Hq.
    destruct (failures_plateau n s Hcf Hem Hn) as [He _].
    apply run_keeps_emergency; cbn; [assumption | assumption |].
    rewrite failures_count. lia.
  - intro n. unfold record_success. cbn.
    repeat match goal with
           | |- context [if ?c then _ else _] => destruct c eqn:?; cbn
           end; try reflexivity; congruence.
Qed.

Lemma record_failure_schedule_witness :
  baseline init_default /\
  delay_multiplier (failures 3 init_default) = 3.0 /\
  emergency_mode (failures 3 init_default) = true.
Proof.
  assert (B : baseline init_default) by (repeat split).
  split; [exact B |].
  exact (proj1 (proj2 (proj2 (record_failure_schedule init_default B)))).
Defined.

(** C2. [should_circuit_break] answers true exactly when the failure count
    has reached twice the emergency threshold, and leaves the limiter as it
    found it; with a threshold of 3 the answer is false after five failures
    in a row and true after six. *)
Theorem should_circuit_break_iff :
  (forall s : AdaptiveRateLimiter,
     (fst (should_circuit_break s) = true <->
      (2 * emergency_threshold s <= consecutive_failures s)%Z) /\
     snd (should_circuit_break s) = s) /\
  (forall (ops : list op) (rph : Z) (bd : Q) (em : Z) (w : World),
     let s := record_success (fst (run ops (init rph bd 3 em, w))) in
     fst (should_circuit_break (failures 5 s)) = false /\
     fst (should_circuit_break (failures 6 s)) = true) /\
  (forall (rph : Z) (bd : Q) (em : Z),
     fst (should_circuit_break (failures 5 (init rph bd 3 em))) = false /\
     fst (should_circuit_break (failures 6 (init rph bd 3 em))) = true).
Proof.
  split; [| split].
  - intro s. split; [| reflexivity].
    unfold should_circuit_break. cbn [fst]. rewrite Z.leb_le. lia.
  - intros ops rph bd em w s.
    assert (Het : emergency_threshold s = 3%Z).
    { unfold s. rewrite record_success_threshold, run_threshold. reflexivity. }
    assert (Hcf : consecutive_failures s = 0%Z)
      by (unfold s; apply record_success_count).
    unfold should_circuit_break. cbn [fst].
    rewrite !failures_threshold, !failures_count, Het, Hcf.
    split; reflexivity.
  - intros rph bd em. split; reflexivity.
Qed.

Lemma strong_invariant_init (rph : Z) (bd : Q) (et em : Z) :
  strong_invariant (init rph bd et em).
Proof.
  unfold strong_invariant. cbn. split; [lra | split; [lia | discriminate]].
Qed.

Lemma strong_invariant_record_success (s : AdaptiveRateLimiter) :
  strong_invariant s -> strong_invariant (record_success s).
Proof.
  destruct s as [rph bd et em rt cf e lrt dm].
  unfold strong_invariant, record_success. cbn.
  intros (Hdm & Hcf & Hem).
  destruct e; cbn; destruct (Qltb 1.0 dm) eqn:Lt; cbn;
    (split; [first [apply py_max_lower | exact Hdm]
            | split; [lia | discriminate]]).
Qed.

Lemma strong_invariant_record_failure (s : AdaptiveRateLimiter) :
  strong_invariant s -> strong_invariant (record_failure s).
Proof.
  destruct s as [rph bd et em rt cf e lrt dm].
  unfold strong_invariant, record_failure.
  cbn [consecutive_failures set_consecutive_failures emergency_mode
       delay_multiplier].
  intros (Hdm & Hcf & Hem).
  destruct (Z.eqb_spec (cf + 1) 1) as [E1 | N1].
  { cbn. split; [lra | split; [lia |]].
    intro Em; destruct (Hem Em); lia. }
  destruct (Z.eqb_spec (cf + 1) 2) as [E2 | N2].
  { cbn. split; [lra | split; [lia |]].
    intro Em; destruct (Hem Em); lia. }
  destruct (Z.leb_spec 3 (cf + 1)) as [L3 | G3]; destruct e; cbn.
  - destruct (Hem eq_refl) as [H3 Hc].
    split; [exact Hdm | split; [lia |]]. intros _. split; [exact H3 | lia].
  - split; [lra | split; [lia |]]. intros _. split; [lra | lia].
  - destruct (Hem eq_refl) as [H3 Hc]. lia.
  - split; [exact Hdm | split; [lia |]]. discriminate.
Qed.

Lemma strong_invariant_reset (s : AdaptiveRateLimiter) :
  strong_invariant (reset s).
Proof.
  unfold strong_invariant. cbn. split; [lra | split; [lia | discriminate]].
Qed.

Lemma strong_invariant_same_core (a b : AdaptiveRateLimiter) :
  same_core a b -> strong_invariant a -> strong_invariant b.
Proof.
  intros (_ & _ & _ & _ & Ecf & Eem & Edm). unfold strong_invariant.
  rewrite Ecf, Eem, Edm. trivial.
Qed.

Lemma strong_invariant_step (o : op) (st : St) :
  strong_invariant (fst st) -> strong_invariant (fst (step o st)).
Proof.
  intro H. destruct o; unfold step; cbn [fst snd].
  - exact H.
  - exact (strong_invariant_same_core _ _ (wait_if_needed_frame jitter st) H).
  - apply strong_invariant_record_success; exact H.
  - apply strong_invariant_record_failure; exact H.
  - exact H.
  - unfold get_stats. destruct (requests_per_hour (fst st) =? 0)%Z; exact H.
  - apply strong_invariant_reset.
Qed.

Lemma strong_invariant_run (ops : list op) (st : St) :
  strong_invariant (fst st) -> strong_invariant (fst (run ops st)).
Proof.
  revert st. induction ops as [| o ops IH]; intros st H; [exact H |].
  cbn. fold (run ops (step o st)). apply IH, strong_invariant_step, H.
Qed.

Lemma strong_invariant_invariant (s : AdaptiveRateLimiter) :
  strong_invariant s -> invariant s.
Proof.
  intros (Hdm & _ & Hem). split; [exact Hdm |].
  intro Em. exact (proj1 (Hem Em)).
Qed.

(** C5. The state invariant -- the delay multiplier is at least 1.0, and
    at least 3.0 in emergency mode -- holds after construction and after
    every operation of every run: waiting, recording a success or a
    failure, asking for the circuit breaker or the statistics, resetting
    (and time passing in between). *)
Theorem invariant_preserved
  (rph : Z) (bd : Q) (et em : Z) (w : World) (ops : list op) (o : op) :
  invariant (init rph bd et em) /\
  invariant (fst (run ops (init rph bd et em, w))) /\
  invariant (fst (step o (run ops (init rph bd et em, w)))).
Proof.
  repeat split;
    apply strong_invariant_invariant;
    try apply strong_invariant_step;
    try apply strong_invariant_run;
    apply strong_invariant_init.
Qed.

(** C10, as the code has it. On a freshly constructed limiter that allows
    at least one request per hour, the first [wait_if_needed] returns
    without sleeping and without moving the clock; the limiter it leaves
    differs from the fresh one only in the time of the last request and in
    the sliding window, which both hold the time of the call. *)
Theorem first_wait_is_immediate
  (rph : Z) (bd : Q) (et em : Z) (jitter : Q) (w : World) :
  (1 <= rph)%Z ->
  wait_if_needed jitter (init rph bd et em, w)
  = (Ok tt,
     (set_request_times [clock w]
        (set_last_request_time (clock w) (init rph bd et em)),
      w)).
Proof.
  intro Hrph.
  unfold wait_if_needed, _enforce_hourly_limit, bind, ret, raise, self,
    update, time_time, datetime_now, time_sleep, deque_append, len.
  cbn.
  destruct (Z.leb_spec rph 0) as [L | G]; [lia |].
  cbn.
  destruct (Z.eqb_spec rph 0) as [E | N]; [lia |].
  destruct (Z.ltb_spec 0 rph) as [L | G']; [| lia].
  reflexivity.
Qed.

Lemma first_wait_is_immediate_witness :
  (1 <= 200)%Z /\
  wait_if_needed 1 (init 200 15 5 3, {| clock := 1000; sleeps := [] |})
  = (Ok tt,
     (set_request_times [1000]
        (set_last_request_time 1000 (init 200 15 5 3)),
      {| clock := 1000; sleeps := [] |})).
Proof.
  split; [lia |].
  apply (first_wait_is_immediate 200 15 5 3 1
           {| clock := 1000; sleeps := [] |}).
  lia.
Defined.

(** C10 as stated fails for a limiter built with [requests_per_hour = 0]:
    its first [wait_if_needed] does not return, it raises [IndexError] when
    it looks for the oldest entry of the empty window. *)
Lemma first_wait_zero_quota_raises :
  fst (wait_if_needed 1 (init 0 15 5 3, {| clock := 1000; sleeps := [] |}))
  <> Ok tt.
Proof. vm_compute. discriminate. Qed.

(** C8. After a request and a reset, the limiter still remembers the time
    of that request, which a fresh limiter does not: one second later its
    next [wait_if_needed] sleeps 14 seconds (base delay 15, jitter 1)
    where the fresh limiter's does not sleep at all. *)
Theorem reset_keeps_last_request_time :
  (forall s : AdaptiveRateLimiter,
     last_request_time (reset s) = last_request_time s) /\
  sleeps (snd (snd (wait_if_needed 1 fresh_at_same_time))) = [] /\
  (exists d : Q,
     sleeps (snd (snd (wait_if_needed 1 after_request_and_reset))) = [d] /\
     d == 14).
Proof.
  split; [reflexivity |].
  split; [vm_compute; reflexivity |].
  eexists. split; [vm_compute; reflexivity |].
  vm_compute. reflexivity.
Qed.

(** What [reset] does restore is everything [get_stats] shows. *)
Lemma reset_restores_visible_fields (s : AdaptiveRateLimiter) :
  reset s
  = set_last_request_time (last_request_time s)
      (init (requests_per_hour s) (base_delay s) (emergency_threshold s)
         (emergency_multiplier s)).
Proof. reflexivity. Qed.

End RateLimiterFacts.

(** ** Degradation manager *)
Section DegradationManagerFacts.
Import DegradationManager.

Lemma updates_S (b : bool) (k : nat) (s : Manager) :
  updates b (S k) s = update_health b (updates b k s).
Proof. reflexivity. Qed.

Lemma update_health_thresholds (b : bool) (s : Manager) :
  minor_threshold (update_health b s) = minor_threshold s /\
  major_threshold (update_health b s) = major_threshold s /\
  recovery_successes (update_health b s) = recovery_successes s.
Proof.
  destruct s as [m M rs h c cs]. unfold update_health. cbn.
  destruct b; cbn;
    repeat match goal with
           | |- context [if ?c then _ else _] => destruct c; cbn
           end; repeat split.
Qed.

(** The state after [k] rejections in a row on a fresh manager: the
    counter holds [k], and from the first rejection on the health state
    is the one the thresholds give. *)
Lemma rejections_from_fresh (m M rs : Z) (k : nat) :
  let s := updates true k (init m M rs) in
  minor_threshold s = m /\ major_threshold s = M /\
  consecutive_429s s = Z.of_nat k /\
  consecutive_successes s = 0%Z /\
  health_state s
  = match k with
    | O => HEALTHY
    | S _ => state_after_rejections m M (Z.of_nat k)
    end.
Proof.
  induction k as [| k IH]; cbn zeta.
  - cbn. repeat split.
  - cbn zeta in IH. rewrite updates_S.
    destruct (updates true k (init m M rs)) as [m' M' rs' h c cs].
    cbn in IH. destruct IH as (-> & -> & -> & -> & Hh).
    unfold update_health, state_after_rejections. cbn.
    replace (Z.of_nat k + 1)%Z with (Z.pos (Pos.of_succ_nat k)) by lia.
    destruct (Z.leb_spec M (Z.pos (Pos.of_succ_nat k))) as [LM | GM]; cbn;
      [repeat split |].
    destruct (Z.leb_spec m (Z.pos (Pos.of_succ_nat k))) as [Lm | Gm]; cbn;
      [repeat split |].
    repeat split. rewrite Hh. destruct k as [| k']; [reflexivity |].
    unfold state_after_rejections.
    destruct (Z.leb_spec M (Z.of_nat (S k'))) as [LM' | GM']; [lia |].
    destruct (Z.leb_spec m (Z.of_nat (S k'))) as [Lm' | Gm']; [lia |].
    reflexivity.
Qed.

(** The admission rule, state by state. *)
Lemma admission_rule (s : Manager) :
  (health_state s = HEALTHY \/ health_state s = RECOVERY ->
   forall p : Priority, should_process_keyword p s = true) /\
  (health_state s = DEGRADED_MINOR ->
   forall p : Priority,
     should_process_keyword p s = true <-> (p = HIGH \/ p = MEDIUM)) /\
  (health_state s = DEGRADED_MAJOR ->
   forall p : Priority, should_process_keyword p s = true <-> p = HIGH).
Proof.
  unfold should_process_keyword.
  split; [| split].
  - intros [-> | ->] p; reflexivity.
  - intros -> p. destruct p; cbn; split; intro H;
      try discriminate; try reflexivity; auto;
      destruct H as [H | H]; discriminate.
  - intros -> p. destruct p; cbn; split; intro H;
      try discriminate; try reflexivity.
Qed.

(** C3, as the code has it. On a fresh manager with thresholds [m < M],
    after [k >= 1] rejections in a row (or before any, when [m > 0]) the
    health state is DEGRADED_MAJOR if [k >= M], else DEGRADED_MINOR if
    [k >= m], else HEALTHY; and in every state HEALTHY and RECOVERY admit
    every priority, DEGRADED_MINOR admits exactly HIGH and MEDIUM, and
    DEGRADED_MAJOR admits exactly HIGH. *)
Theorem rejections_degrade (m M rs : Z) (k : nat) :
  (m < M)%Z ->
  (1 <= k)%nat \/ (0 < m)%Z ->
  health_state (updates true k (init m M rs))
  = state_after_rejections m M (Z.of_nat k) /\
  (forall s : Manager,
     (health_state s = HEALTHY \/ health_state s = RECOVERY ->
      forall p : Priority, should_process_keyword p s = true) /\
     (health_state s = DEGRADED_MINOR ->
      forall p : Priority,
        should_process_keyword p s = true <-> (p = HIGH \/ p = MEDIUM)) /\
     (health_state s = DEGRADED_MAJOR ->
      forall p : Priority, should_process_keyword p s = true <-> p = HIGH)).
Proof.
  intros HmM Hk. split; [| exact admission_rule].
  destruct (rejections_from_fresh m M rs k) as (_ & _ & _ & _ & Hh).
  rewrite Hh. destruct k as [| k]; [| reflexivity].
  destruct Hk as [Hk | Hm]; [lia |].
  unfold state_after_rejections. cbn.
  destruct (Z.leb_spec M 0) as [L | G]; [lia |].
  destruct (Z.leb_spec m 0) as [L' | G']; [lia | reflexivity].
Qed.

Lemma rejections_degrade_witness :
  health_state (updates true 5 (init 5 10 3)) = DEGRADED_MINOR /\
  health_state (updates true 10 (init 5 10 3)) = DEGRADED_MAJOR.
Proof.
  split.
  - exact (proj1 (rejections_degrade 5 10 3 5 ltac:(lia) ltac:(left; lia))).
  - exact (proj1 (rejections_degrade 5 10 3 10 ltac:(lia) ltac:(left; lia))).
Defined.

(** C3 as stated fails before the first update when the minor threshold
    is 0: the claim's formula gives DEGRADED_MINOR for [k = 0], the fresh
    manager is HEALTHY. *)
Lemma fresh_manager_is_healthy_at_zero_threshold :
  (0 < 1)%Z /\
  health_state (updates true 0 (init 0 1 3))
  <> state_after_rejections 0 1 (Z.of_nat 0).
Proof. split; [lia |]. cbn. discriminate. Qed.

(** The specification's example: thresholds 5 and 10. *)
Example degrade_5_10 :
  let s5 := updates true 5 init_default in
  let s10 := updates true 10 init_default in
  health_state s5 = DEGRADED_MINOR /\
  should_process_keyword LOW s5 = false /\
  should_process_keyword MEDIUM s5 = true /\
  health_state s10 = DEGRADED_MAJOR /\
  should_process_keyword MEDIUM s10 = false /\
  should_process_keyword HIGH s10 = true.
Proof. cbn. repeat split. Qed.

Lemma run_app (ev1 ev2 : list bool) (s : Manager) :
  run (ev1 ++ ev2) s = run ev2 (run ev1 s).
Proof. unfold run. apply fold_left_app. Qed.

(** What every history maintains: counters are never negative, and a
    manager is only degraded while its success streak is still short of
    the recovery threshold. *)
Lemma reachable_facts (m M rs : Z) (events : list bool) :
  (1 <= rs)%Z ->
  let s := run events (init m M rs) in
  recovery_successes s = rs /\
  (0 <= consecutive_429s s)%Z /\
  (0 <= consecutive_successes s)%Z /\
  (degraded s -> (consecutive_successes s < rs)%Z).
Proof.
  intro Hrs. cbn zeta.
  induction events as [| e events IH] using rev_ind.
  - cbn. unfold degraded. cbn.
    split; [reflexivity | split; [lia | split; [lia |]]].
    intros [H | H]; discriminate.
  - rewrite run_app. cbn [run fold_left].
    destruct (run events (init m M rs)) as [m' M' rs' h c cs].
    unfold degraded in *. cbn in IH. destruct IH as (-> & Hc & Hcs & Hd).
    unfold update_health. cbn.
    destruct e; cbn.
    + destruct (Z.leb_spec M' (c + 1)); cbn;
        [| destruct (Z.leb_spec m' (c + 1)); cbn];
        (split; [reflexivity | split; [lia | split; [lia | intros _; lia]]]).
    + destruct h; cbn;
        destruct (Z.ltb_spec 0 c); cbn;
        destruct (Z.leb_spec rs (cs + 1)); cbn;
        try (destruct (Z.leb_spec (rs * 2) (cs + 1)); cbn);
        (split; [reflexivity | split; [lia | split; [lia |]]]);
        try (intros [K | K]; discriminate);
        intro Hdeg; assert (Hd' := Hd Hdeg); lia.
Qed.

(** A success update, field by field. *)
Lemma update_health_success (m M rs : Z) (h : HealthState) (c cs : Z) :
  update_health false (mkManager m M rs h c cs)
  = let c1 := if (0 <? c)%Z then Z.max 0 (c - 1) else c in
    if (rs <=? cs + 1)%Z then
      if (rs * 2 <=? cs + 1)%Z
      then mkManager m M rs HEALTHY 0 (cs + 1)
      else mkManager m M rs
             (match h with HEALTHY => HEALTHY | _ => RECOVERY end)
             c1 (cs + 1)
    else mkManager m M rs h c1 (cs + 1).
Proof.
  unfold update_health. cbn.
  destruct h; cbn; destruct (0 <? c)%Z; cbn;
    destruct (rs <=? cs + 1)%Z; cbn;
    destruct (rs * 2 <=? cs + 1)%Z; reflexivity.
Qed.

(** The health state along a run of successes that starts in a degraded
    state with a streak shorter than the recovery threshold. *)
Lemma successes_from_degraded (s : Manager) (j : nat) :
  degraded s ->
  (1 <= recovery_successes s)%Z ->
  (0 <= consecutive_successes s < recovery_successes s)%Z ->
  let rs := recovery_successes s in
  let n := (consecutive_successes s + Z.of_nat j)%Z in
  let s' := updates false j s in
  recovery_successes s' = rs /\
  consecutive_successes s' = n /\
  health_state s'
  = (if (n <? rs)%Z then health_state s
     else if (n <? rs * 2)%Z then RECOVERY else HEALTHY) /\
  ((rs * 2 <= n)%Z -> consecutive_429s s' = 0%Z).
Proof.
  intros Hdeg Hrs Hcs. cbn zeta.
  induction j as [| j IH].
  - unfold updates. cbn [Nat.iter Z.of_nat].
    replace (consecutive_successes s + 0)%Z
      with (consecutive_successes s) by lia.
    destruct (Z.ltb_spec (consecutive_successes s) (recovery_successes s));
      [| lia].
    split; [reflexivity | split; [reflexivity | split; [reflexivity |]]].
    intro; lia.
  - rewrite updates_S.
    replace (consecutive_successes s + Z.of_nat (S j))%Z
      with (consecutive_successes s + Z.of_nat j + 1)%Z by lia.
    assert (Hh : health_state s <> HEALTHY)
      by (destruct Hdeg as [E | E]; rewrite E; discriminate).
    assert (Hn : (0 <= consecutive_successes s + Z.of_nat j)%Z) by lia.
    revert IH Hh Hn. revert Hrs.
    generalize (consecutive_successes s + Z.of_nat j)%Z as n.
    generalize (health_state s) as h0.
    generalize (recovery_successes s) as rs.
    destruct (updates false j s) as [m' M' rs' h c cs].
    intros rs h0 n Hrs IH Hh Hn. cbn in IH.
    destruct IH as (-> & -> & -> & Hz).
    rewrite update_health_success. cbn zeta.
    repeat (match goal with
            | |- context [(?a <=? ?b)%Z] => destruct (Z.leb_spec a b)
            | |- context [(?a <? ?b)%Z] => destruct (Z.ltb_spec a b)
            end; cbn [recovery_successes consecutive_successes health_state
                      consecutive_429s]);
      try lia;
      try (destruct h0; try congruence);
      (split; [reflexivity | split; [reflexivity | split; [reflexivity |]]]);
      intro; try reflexivity; lia.
Qed.

(** C4, as the code has it. A success adds one to the success streak; it
    takes one off the rejection counter (never below 0) unless it is the
    success that completes a sustained run (streak at twice the recovery
    threshold), which clears the counter.  With a recovery threshold of at
    least 1, from any degraded state of any history, that many successes
    in a row lead to RECOVERY, and twice as many to HEALTHY with the
    rejection counter at 0. *)
Theorem success_recovers
  (s0 : Manager) (m M rs : Z) (events : list bool) :
  (0 <= consecutive_429s s0)%Z ->
  (1 <= rs)%Z ->
  degraded (run events (init m M rs)) ->
  (consecutive_successes (update_health false s0)
   = (consecutive_successes s0 + 1)%Z /\
   consecutive_429s (update_health false s0)
   = (if completes_recovery s0 then 0
      else Z.max 0 (consecutive_429s s0 - 1))%Z) /\
  (let s := run events (init m M rs) in
   health_state (updates false (Z.to_nat rs) s) = RECOVERY /\
   health_state (updates false (Z.to_nat (2 * rs)) s) = HEALTHY /\
   consecutive_429s (updates false (Z.to_nat (2 * rs)) s) = 0%Z).
Proof.
  intros Hc Hrs Hdeg. split.
  - destruct s0 as [m0 M0 rs0 h c cs]. cbn in Hc.
    rewrite update_health_success. unfold completes_recovery.
    cbn [recovery_successes consecutive_successes consecutive_429s].
    cbn zeta.
    destruct (rs0 <=? cs + 1)%Z; destruct (rs0 * 2 <=? cs + 1)%Z;
      cbn [andb consecutive_successes consecutive_429s];
      (split; [reflexivity |]);
      destruct (Z.ltb_spec 0 c); lia.
  - cbn zeta.
    destruct (reachable_facts m M rs events Hrs) as (Ers & _ & Hcs & Hshort).
    cbn zeta in Ers, Hcs, Hshort.
    set (s := run events (init m M rs)) in *.
    assert (Hlt := Hshort Hdeg).
    assert (Hrs' : (1 <= recovery_successes s)%Z) by lia.
    assert (Hcs' : (0 <= consecutive_successes s < recovery_successes s)%Z)
      by lia.
    destruct (successes_from_degraded s (Z.to_nat rs) Hdeg Hrs' Hcs')
      as (_ & _ & H1 & _).
    destruct (successes_from_degraded s (Z.to_nat (2 * rs)) Hdeg Hrs' Hcs')
      as (_ & _ & H2 & H3).
    cbn zeta in H1, H2, H3. rewrite Ers in H1, H2, H3.
    rewrite Z2Nat.id in H1, H2, H3 by lia.
    split; [| split].
    + rewrite H1.
      destruct (Z.ltb_spec (consecutive_successes s + rs) rs); [lia |].
      destruct (Z.ltb_spec (consecutive_successes s + rs) (rs * 2));
        [reflexivity | lia].
    + rewrite H2.
      destruct (Z.ltb_spec (consecutive_successes s + 2 * rs) rs); [lia |].
      destruct (Z.ltb_spec (consecutive_successes s + 2 * rs) (rs * 2));
        [lia | reflexivity].
    + apply H3. lia.
Qed.

Lemma success_recovers_witness :
  let s := run (repeat true 10) (init 5 10 3) in
  health_state (updates false 3 s) = RECOVERY /\
  health_state (updates false 6 s) = HEALTHY /\
  consecutive_429s (updates false 6 s) = 0%Z.
Proof.
  refine (proj2 (success_recovers before_sixth_success 5 10 3
                   (repeat true 10) _ _ _)).
  - vm_compute. discriminate.
  - lia.
  - right. reflexivity.
Defined.

(** C4 as stated fails on the success that completes a sustained run:
    after fifteen rejections and five successes the rejection counter
    stands at 10, and the sixth success sets it to 0 -- a drop of 10,
    not of at most 1. *)
Lemma sixth_success_clears_counter :
  consecutive_429s before_sixth_success = 10%Z /\
  consecutive_429s (update_health false before_sixth_success) = 0%Z /\
  ~ (consecutive_429s before_sixth_success - 1
     <= consecutive_429s (update_health false before_sixth_success))%Z.
Proof. vm_compute. repeat split; discriminate || (intro H; apply H; reflexivity). Qed.

(** [reset] gives back the freshly constructed manager. *)
Lemma reset_is_fresh (s : Manager) :
  reset s
  = init (minor_threshold s) (major_threshold s) (recovery_successes s).
Proof. reflexivity. Qed.

End DegradationManagerFacts.

(** ** Sorting *)
Section SortingFacts.

Lemma insert_sorted_perm (x : Q) (l : list Q) :
  Permutation (x :: l) (insert_sorted x l).
Proof.
  induction l as [| y r IH]; cbn.
  - apply Permutation_refl.
  - destruct (Qltb y x).
    + apply perm_trans with (y :: x :: r).
      * apply perm_swap.
      * apply perm_skip. exact IH.
    + apply Permutation_refl.
Qed.

Lemma sorted_perm (l : list Q) : Permutation l (sorted l).
Proof.
  induction l as [| x r IH]; cbn.
  - apply perm_nil.
  - apply perm_trans with (x :: sorted r).
    + apply perm_skip. exact IH.
    + apply insert_sorted_perm.
Qed.

Lemma sorted_length (l : list Q) : length (sorted l) = length l.
Proof. symmetry. apply Permutation_length, sorted_perm. Qed.

Lemma insert_sorted_hd (a x : Q) (l : list Q) :
  a <= x -> HdRel Qle a l -> HdRel Qle a (insert_sorted x l).
Proof.
  intros Hax Hl. destruct l as [| y r]; cbn.
  - constructor. exact Hax.
  - destruct (Qltb y x).
    + constructor. inversion Hl; assumption.
    + constructor. exact Hax.
Qed.

Lemma insert_sorted_Sorted (x : Q) (l : list Q) :
  Sorted Qle l -> Sorted Qle (insert_sorted x l).
Proof.
  induction l as [| y r IH]; intro Hs; cbn.
  - repeat constructor.
  - destruct (Qltb y x) eqn:E.
    + apply Qltb_true in E. inversion Hs; subst.
      constructor.
      * apply IH. assumption.
      * apply insert_sorted_hd; [apply Qlt_le_weak; exact E | assumption].
    + apply Qltb_false in E. constructor; [exact Hs |].
      constructor. exact E.
Qed.

Lemma sorted_Sorted (l : list Q) : Sorted Qle (sorted l).
Proof.
  induction l as [| x r IH]; cbn.
  - constructor.
  - apply insert_sorted_Sorted. exact IH.
Qed.

(** Sorting leaves an ascending list as it is. *)
Lemma sorted_id (l : list Q) : Sorted Qle l -> sorted l = l.
Proof.
  induction l as [| x r IH]; intro Hs; [reflexivity |].
  inversion Hs as [| ? ? Hr Hhd]; subst. cbn. rewrite (IH Hr).
  destruct r as [| y r']; [reflexivity |]. cbn.
  inversion Hhd; subst.
  destruct (Qltb y x) eqn:E; [| reflexivity].
  apply Qltb_true in E. exfalso.
  apply (Qlt_irrefl y). apply Qlt_le_trans with x; assumption.
Qed.

End SortingFacts.

(** ** Metrics *)
Section MetricsFacts.
Import MetricsCollector.

Lemma len_nonneg {A : Type} (l : list A) : (0 <= len l)%Z.
Proof. unfold len. lia. Qed.

Lemma py_int_95 (n : Z) :
  (0 <= n)%Z -> py_int (inject_Z n * 0.95) = (19 * n / 20)%Z.
Proof.
  intro Hn. unfold py_int.
  destruct (Qltb (inject_Z n * 0.95) 0) eqn:E.
  - apply Qltb_true in E. exfalso.
    unfold Qlt, Qmult, inject_Z in E. cbn in E. lia.
  - unfold Qfloor, Qmult, inject_Z. cbn [Qnum Qden].
    change (Z.pos (1 * 100)) with 100%Z.
    replace (n * 95)%Z with (19 * n * 5)%Z by lia.
    change 100%Z with (20 * 5)%Z.
    apply Z.div_mul_cancel_r; lia.
Qed.

Lemma nearest_rank_95_eq (n : Z) :
  nearest_rank_95 n = (- ((- (19 * n)) / 20))%Z.
Proof.
  unfold nearest_rank_95, Qceiling, Qfloor, Qopp, Qmult, inject_Z.
  cbn [Qnum Qden].
  change (Z.pos (100 * 1)) with 100%Z.
  replace (- (95 * n))%Z with (- (19 * n) * 5)%Z by lia.
  change 100%Z with (20 * 5)%Z.
  rewrite Z.div_mul_cancel_r by lia. reflexivity.
Qed.

(** The code's rank against the nearest rank: the same unless the window
    size is a multiple of 20, where the code is one rank higher. *)
Lemma floor_rank_vs_nearest_rank (n : Z) :
  ((n mod 20 <> 0)%Z -> floor_rank_95 n = nearest_rank_95 n) /\
  ((n mod 20 = 0)%Z -> floor_rank_95 n = (nearest_rank_95 n + 1)%Z).
Proof.
  rewrite nearest_rank_95_eq. unfold floor_rank_95.
  assert (H5 := Z.div_mod n 20 ltac:(lia)).
  assert (H6 := Z.mod_pos_bound n 20 ltac:(lia)).
  set (q := (n / 20)%Z) in *. set (r := (n mod 20)%Z) in *.
  assert (Hneg : (- (19 * n) / 20 = - (19 * q) - r)%Z).
  { symmetry. apply Z.div_unique with (r := r); lia. }
  rewrite Hneg.
  split; intro Hm.
  - assert (Hpos : (19 * n / 20 = 19 * q + r - 1)%Z).
    { symmetry. apply Z.div_unique with (r := (20 - r)%Z); lia. }
    rewrite Hpos. lia.
  - assert (Hpos : (19 * n / 20 = 19 * q)%Z).
    { symmetry. apply Z.div_unique with (r := 0%Z); lia. }
    rewrite Hpos. lia.
Qed.

End MetricsFacts.
